(** * quill-image-upload: the [ImageUpload] module of src/image-upload.js

    A shallow embedding of the class [ImageUpload] (the variant of
    src/image-upload.js that also listens for drop and paste; the
    toolbar-only variant has the same [selectLocalImage], [sendToServer],
    [insert] and callbacks).

    The class is a set of event handlers.  Every method is embedded as a
    program of a small monad that threads the instance ([this.quill],
    [this.options]), records in order the calls the method makes on its
    collaborators (the editor, the browser, the functions supplied in the
    options) and may complete by throwing.  Handlers the class registers on
    browser objects ([reader.onload], [xhr.onload], [input.onchange], the
    [setTimeout] callback) are first-order tags carried by the event that
    registers them; each has a program that is run when the browser fires
    it. *)

From Stdlib Require Import String Ascii List ZArith Lia Bool.
Import ListNotations.
Open Scope string_scope.

(** ** JSON texts

    [xhr.onload] calls the built-in [JSON.parse] on the response body.  The
    module model below takes the parser as a parameter; this section gives
    the grammar of ECMA-404 as a recursive-descent parser, used to run the
    model on concrete response bodies.  Number and string tokens are kept as
    their source lexemes. *)

Module JSON.

#[warnings="-register-all"]
Inductive json : Type :=
| JNull
| JBool (b : bool)
| JNumber (lexeme : string)
| JString (lexeme : string)
| JArray (elements : list json)
| JObject (members : list (string * json)).

Inductive presult (A : Type) : Type :=
| Parsed (a : A) (rest : string)
| Reject
| Exhausted.
Arguments Parsed {A} a rest.
Arguments Reject {A}.
Arguments Exhausted {A}.

Definition code (c : ascii) : nat := nat_of_ascii c.

Definition is_ws (c : ascii) : bool :=
  (code c =? 9)%nat || (code c =? 10)%nat || (code c =? 13)%nat || (code c =? 32)%nat.

Definition is_digit (c : ascii) : bool :=
  (48 <=? code c)%nat && (code c <=? 57)%nat.

Definition is_hex (c : ascii) : bool :=
  is_digit c
  || ((65 <=? code c)%nat && (code c <=? 70)%nat)
  || ((97 <=? code c)%nat && (code c <=? 102)%nat).

(** The double quote. *)
Definition is_quote (c : ascii) : bool := (code c =? 34)%nat.

Definition is_simple_escape (c : ascii) : bool :=
  is_quote c || existsb (Ascii.eqb c) (list_ascii_of_string "\/bfnrt").

Fixpoint skip_ws (s : string) : string :=
  match s with
  | String c r => if is_ws c then skip_ws r else s
  | EmptyString => s
  end.

(** The characters of a string token after its opening quote: the lexeme up
    to the closing quote and the text after it. *)
Fixpoint scan_string (s : string) : option (string * string) :=
  match s with
  | EmptyString => None
  | String c r =>
    if is_quote c then Some ("", r)
    else if Ascii.eqb c "\" then
      match r with
      | EmptyString => None
      | String e r1 =>
        if is_simple_escape e then
          match scan_string r1 with
          | Some (lex, rest) => Some (String c (String e lex), rest)
          | None => None
          end
        else if Ascii.eqb e "u" then
          match r1 with
          | String h1 (String h2 (String h3 (String h4 r2))) =>
            if is_hex h1 && is_hex h2 && is_hex h3 && is_hex h4 then
              match scan_string r2 with
              | Some (lex, rest) =>
                Some (String c (String e (String h1 (String h2 (String h3 (String h4 lex))))), rest)
              | None => None
              end
            else None
          | _ => None
          end
        else None
      end
    else if (code c <? 32)%nat then None
    else
      match scan_string r with
      | Some (lex, rest) => Some (String c lex, rest)
      | None => None
      end
  end.

(** The longest prefix of decimal digits and the text after it. *)
Fixpoint span_digits (s : string) : string * string :=
  match s with
  | String c r =>
    if is_digit c then let (d, rest) := span_digits r in (String c d, rest)
    else ("", s)
  | EmptyString => ("", s)
  end.

Definition scan_sign (s : string) : string * string :=
  match s with
  | String c r => if Ascii.eqb c "-" then ("-", r) else ("", s)
  | EmptyString => ("", s)
  end.

(** [0] or a non-zero digit followed by digits. *)
Definition scan_int (s : string) : option (string * string) :=
  match s with
  | String c r =>
    if Ascii.eqb c "0" then Some ("0", r)
    else if is_digit c then let (d, rest) := span_digits r in Some (String c d, rest)
    else None
  | EmptyString => None
  end.

Definition scan_frac (s : string) : option (string * string) :=
  match s with
  | String c r =>
    if Ascii.eqb c "." then
      match span_digits r with
      | (EmptyString, _) => None
      | (d, rest) => Some (String c d, rest)
      end
    else Some ("", s)
  | EmptyString => Some ("", s)
  end.

Definition scan_exp (s : string) : option (string * string) :=
  match s with
  | String c r =>
    if Ascii.eqb c "e" || Ascii.eqb c "E" then
      let (sg, r1) :=
        match r with
        | String p r' =>
          if Ascii.eqb p "+" || Ascii.eqb p "-" then (String p "", r') else ("", r)
        | EmptyString => ("", r)
        end in
      match span_digits r1 with
      | (EmptyString, _) => None
      | (d, rest) => Some (String c (sg ++ d), rest)
      end
    else Some ("", s)
  | EmptyString => Some ("", s)
  end.

Definition scan_number (s : string) : option (string * string) :=
  let (sg, r0) := scan_sign s in
  match scan_int r0 with
  | None => None
  | Some (i, r1) =>
    match scan_frac r1 with
    | None => None
    | Some (f, r2) =>
      match scan_exp r2 with
      | None => None
      | Some (e, r3) => Some (sg ++ i ++ f ++ e, r3)
      end
    end
  end.

(** [expect w s]: the text after the literal [w] when [s] starts with it. *)
Fixpoint expect (w s : string) : option string :=
  match w with
  | EmptyString => Some s
  | String a w' =>
    match s with
    | String c r => if Ascii.eqb a c then expect w' r else None
    | EmptyString => None
    end
  end.

Definition parse_literal (w : string) (v : json) (s : string) : presult json :=
  match expect w s with
  | Some rest => Parsed v rest
  | None => Reject
  end.

(** One value at the head of [s] (no leading white space).  The three
    functions recurse on [fuel]; [fuel_for] below is always enough
    ([JSON_facts.parse_text_total]). *)
Fixpoint parse_value (fuel : nat) (s : string) {struct fuel} : presult json :=
  match fuel with
  | O => Exhausted
  | S f =>
    match s with
    | EmptyString => Reject
    | String c r =>
      if Ascii.eqb c "{" then
        match skip_ws r with
        | EmptyString => Reject
        | String c1 r1 as s1 =>
          if Ascii.eqb c1 "}" then Parsed (JObject []) r1
          else parse_members f [] s1
        end
      else if Ascii.eqb c "[" then
        match skip_ws r with
        | EmptyString => Reject
        | String c1 r1 as s1 =>
          if Ascii.eqb c1 "]" then Parsed (JArray []) r1
          else parse_elements f [] s1
        end
      else if is_quote c then
        match scan_string r with
        | Some (lex, rest) => Parsed (JString lex) rest
        | None => Reject
        end
      else if Ascii.eqb c "-" || is_digit c then
        match scan_number s with
        | Some (lex, rest) => Parsed (JNumber lex) rest
        | None => Reject
        end
      else if Ascii.eqb c "t" then parse_literal "true" (JBool true) s
      else if Ascii.eqb c "f" then parse_literal "false" (JBool false) s
      else if Ascii.eqb c "n" then parse_literal "null" JNull s
      else Reject
    end
  end

with parse_elements (fuel : nat) (acc : list json) (s : string) {struct fuel}
  : presult json :=
  match fuel with
  | O => Exhausted
  | S f =>
    match parse_value f s with
    | Parsed v r =>
      match skip_ws r with
      | EmptyString => Reject
      | String c r1 =>
        if Ascii.eqb c "," then parse_elements f (v :: acc) (skip_ws r1)
        else if Ascii.eqb c "]" then Parsed (JArray (rev (v :: acc))) r1
        else Reject
      end
    | Reject => Reject
    | Exhausted => Exhausted
    end
  end

with parse_members (fuel : nat) (acc : list (string * json)) (s : string)
  {struct fuel} : presult json :=
  match fuel with
  | O => Exhausted
  | S f =>
    match s with
    | EmptyString => Reject
    | String q r =>
      if is_quote q then
        match scan_string r with
        | None => Reject
        | Some (key, r1) =>
          match skip_ws r1 with
          | EmptyString => Reject
          | String c2 r2 =>
            if Ascii.eqb c2 ":" then
              match parse_value f (skip_ws r2) with
              | Parsed v r3 =>
                match skip_ws r3 with
                | EmptyString => Reject
                | String c4 r4 =>
                  if Ascii.eqb c4 "," then
                    parse_members f ((key, v) :: acc) (skip_ws r4)
                  else if Ascii.eqb c4 "}" then
                    Parsed (JObject (rev ((key, v) :: acc))) r4
                  else Reject
                end
              | Reject => Reject
              | Exhausted => Exhausted
              end
            else Reject
          end
        end
      else Reject
    end
  end.

Definition fuel_for (text : string) : nat := S (2 * String.length text).

(** A whole text: white space, one value, white space, end of input. *)
Definition parse_text (text : string) : presult json :=
  match parse_value (fuel_for text) (skip_ws text) with
  | Parsed v rest =>
    match skip_ws rest with
    | EmptyString => Parsed v ""
    | String _ _ => Reject
    end
  | Reject => Reject
  | Exhausted => Exhausted
  end.

(** [JSON.parse]: [None] stands for the [SyntaxError] it throws. *)
Definition parse (text : string) : option json :=
  match parse_text text with
  | Parsed v _ => Some v
  | _ => None
  end.

End JSON.

(** ** Values of the host page *)

(** Truthiness of a string: every string but the empty one. *)
Definition truthy (s : string) : bool := negb (s =? "").

(** [a || b] where [a] is a string or [undefined]. *)
Definition or_string (a : option string) (b : string) : string :=
  match a with
  | Some s => if truthy s then s else b
  | None => b
  end.

(** The string tested by [if (a)]: [Some] when [a] is truthy. *)
Definition if_truthy (a : option string) : option string :=
  match a with
  | Some s => if truthy s then Some s else None
  | None => None
  end.

(** [a || b] where [a] is a number or [undefined]: [0] is falsy. *)
Definition or_number (a : option Z) (b : Z) : Z :=
  match a with
  | Some n => if (n =? 0)%Z then b else n
  | None => b
  end.

(** [a || {}] where [a] is an object used as a string map, in the order
    [for ... in] enumerates its keys. *)
Definition or_empty {A : Type} (a : option (list A)) : list A :=
  match a with
  | Some l => l
  | None => []
  end.

Definition is_set {A : Type} (a : option A) : bool :=
  match a with
  | Some _ => true
  | None => false
  end.

(** [/^image\//.test(type)] *)
Definition is_image (type : string) : bool := prefix "image/" type.

Module File.
Record t : Type := mk { type : string; bytes : string }.
End File.

(** An entry of [evt.clipboardData.items]; [getAsFile()] returns a [File]
    or [null]. *)
Module DataTransferItem.
Record t : Type := mk { type : string; getAsFile : option File.t }.
End DataTransferItem.

(** What the class calls [file]: a [File] (picker, drop) or a
    [DataTransferItem] (paste). *)
Inductive entry : Type :=
| a_file (f : File.t)
| an_item (i : DataTransferItem.t).

(** [file.type] *)
Definition entry_type (file : entry) : string :=
  match file with
  | a_file f => File.type f
  | an_item i => DataTransferItem.type i
  end.

(** [file.getAsFile ? file.getAsFile() : file], kept when it is a [Blob]. *)
Definition entry_blob (file : entry) : option File.t :=
  match file with
  | a_file f => Some f
  | an_item i => DataTransferItem.getAsFile i
  end.

(** A function supplied by the page in the options; the class only ever
    calls it. *)
Inductive UserFn : Type := user_fn (id : nat).

Module Csrf.
Record t : Type := mk { token : string; hash : string }.
End Csrf.

(** [this.options]; [None] is an option left out. *)
Module Options.
Record t : Type := mk {
  url : option string;
  method : option string;
  name : option string;
  withCredentials : option bool;
  headers : option (list (string * string));
  csrf : option Csrf.t;
  customUploader : option UserFn;
  callbackOK : option UserFn;
  callbackKO : option UserFn;
  checkBeforeSend : option UserFn }.

(** [options = {}] *)
Definition empty : t :=
  mk None None None None None None None None None None.
End Options.

(** What is handed to [insert] and to the success callback: a string (the
    reader's data URI, a URL) or what [JSON.parse] built. *)
Inductive value : Type :=
| VString (s : string)
| VParsed (j : JSON.json).

(** The error object literal of [xhr.onload]. *)
Module UploadError.
Record t : Type := mk { code : Z; type : string; body : string }.
End UploadError.

(** [quill.getSelection()] returns a range or [null]. *)
Module Range.
Record t : Type := mk { index : Z; length : Z }.
End Range.

(** The editor, as far as the class uses it. *)
Class Quill (Q : Type) : Type := {
  getSelection : Q -> option Range.t;
  getLength : Q -> Z;
  insertEmbed : Q -> Z -> string -> value -> string -> Q }.

(** *** Functions the class hands out *)

(** The callee of an overridable callback: the function of the options, or
    the class's own method bound to [this]. *)
Inductive callee : Type :=
| supplied (f : UserFn)
| own_method.

(** [this.options.f || this.f.bind(this)] *)
Definition resolve (f : option UserFn) : callee :=
  match f with
  | Some u => supplied u
  | None => own_method
  end.

(** Continuations that take a file: [this.sendToServer.bind(this)] and the
    arrow function of [handlePaste]. *)
Inductive file_cont : Type := k_sendToServer | k_paste.

(** Continuations that take a data URL: [this.insert.bind(this)] and
    [dataUrl => { this.insert(dataUrl) }]. *)
Inductive data_cont : Type := k_insert.

(** Handlers registered on browser objects, with the variables they
    close over. *)
Inductive handler : Type :=
| toolbar_image
| root_drop
| root_paste
| input_onchange
| xhr_onload (callbackOK callbackKO : callee)
| send_reader_onload (callbackOK : callee)
| read_reader_onload (file : entry) (callback : file_cont)
| paste_timeout (dataUrl : entry).

(** A field of a [FormData]: a blob is sent as a file, anything else as
    its string conversion. *)
Inductive form_value : Type :=
| form_file (f : File.t)
| form_string (s : string).

Definition FormData : Type := list (string * form_value).

Definition form_value_of (file : entry) : form_value :=
  match file with
  | a_file f => form_file f
  | an_item _ => form_string "[object DataTransferItem]"
  end.

Module XMLHttpRequest.
Record t : Type := mk {
  method : string;
  url : string;
  async : bool;
  requestHeaders : list (string * string);
  onload : option handler;
  withCredentials : bool }.

(** [new XMLHttpRequest()] followed by [open(method, url, async)] *)
Definition open (method url : string) (async : bool) : t :=
  mk method url async [] None false.

Definition setRequestHeader (x : t) (header : string * string) : t :=
  mk (method x) (url x) (async x) (requestHeaders x ++ [header])
     (onload x) (withCredentials x).

Definition set_onload (x : t) (h : handler) : t :=
  mk (method x) (url x) (async x) (requestHeaders x) (Some h)
     (withCredentials x).

Definition set_withCredentials (x : t) (b : bool) : t :=
  mk (method x) (url x) (async x) (requestHeaders x) (onload x) b.
End XMLHttpRequest.

(** The part of the DOM [handleDrop] reads. *)
Module Dom.
Record CaretRange : Type :=
  mkRange { startContainer : nat; startOffset : Z }.

Record Document : Type := mkDocument {
  caretRangeFromPoint : option (Z -> Z -> option CaretRange);
  has_selection : bool }.

Record DropEvent : Type := mkDrop {
  dataTransfer_files : option (list File.t);
  clientX : Z;
  clientY : Z }.

Record PasteEvent : Type := mkPaste {
  clipboardData_items : option (list DataTransferItem.t) }.
End Dom.

(** *** Calls the class makes, in the order it makes them *)

Inductive event : Type :=
| ToolbarAddHandler (format : string) (h : handler)
| RootAddEventListener (type : string) (h : handler)
| InputClick (onchange : handler)
| ConsoleWarn (message : string)
| Alert (error : UploadError.t)
| PreventDefault
| SetBaseAndExtent (anchorNode : nat) (anchorOffset : Z)
                   (focusNode : nat) (focusOffset : Z)
| CustomUploader (f : UserFn) (file : entry) (next : data_cont)
| CheckBeforeSend (c : callee) (file : entry) (next : file_cont)
| CallbackOK (c : callee) (response : value) (next : data_cont)
| CallbackKO (c : callee) (error : UploadError.t)
| XhrSend (xhr : XMLHttpRequest.t) (fd : FormData)
| ReadAsDataURL (onload : handler) (blob : entry)
| SetTimeout (h : handler) (delay : Z)
| InsertEmbed (index : Z) (type : string) (v : value) (source : string).

Inductive exn : Type := SyntaxError | TypeError.

Inductive completion (A : Type) : Type :=
| normal (a : A)
| throws (e : exn).
Arguments normal {A} a.
Arguments throws {A} e.

(** ** The class *)

Section ImageUpload.

Context {Q : Type} `{Quill Q}.

(** [JSON.parse]; [None] when it throws a [SyntaxError]. *)
Variable JSON_parse : string -> option JSON.json.

(** The global [document]. *)
Variable document : Dom.Document.

(** An instance: the two fields the constructor saves. *)
Record ImageUpload : Type := mkImageUpload {
  quill : Q;
  options : Options.t }.

Record outcome (A : Type) : Type := mkOutcome {
  completed : completion A;
  trace : list event;
  this_after : ImageUpload }.
Arguments mkOutcome {A} completed trace this_after.
Arguments completed {A} o.
Arguments trace {A} o.
Arguments this_after {A} o.

(** Programs: run on an instance, they give a completion, the calls made
    and the instance afterwards. *)
Definition M (A : Type) : Type := ImageUpload -> outcome A.

Definition ret {A : Type} (a : A) : M A :=
  fun this => mkOutcome (normal a) [] this.

Definition bind {A B : Type} (c : M A) (k : A -> M B) : M B :=
  fun this =>
    let o := c this in
    match completed o with
    | normal a =>
      let o' := k a (this_after o) in
      mkOutcome (completed o') (trace o ++ trace o') (this_after o')
    | throws e => mkOutcome (throws e) (trace o) (this_after o)
    end.

Notation "x <- c ;; k" := (bind c (fun x => k))
  (at level 61, c at next level, right associativity).
Notation "c ;; k" := (bind c (fun _ => k))
  (at level 61, right associativity).

Definition throw {A : Type} (e : exn) : M A :=
  fun this => mkOutcome (throws e) [] this.

Definition emit (e : event) : M unit :=
  fun this => mkOutcome (normal tt) [e] this.

Definition this_options : M Options.t :=
  fun this => mkOutcome (normal (options this)) [] this.

Definition quill_getSelection : M (option Range.t) :=
  fun this => mkOutcome (normal (getSelection (quill this))) [] this.

Definition quill_getLength : M Z :=
  fun this => mkOutcome (normal (getLength (quill this))) [] this.

Definition quill_insertEmbed (index : Z) (type : string) (v : value)
  (source : string) : M unit :=
  fun this =>
    mkOutcome (normal tt) [InsertEmbed index type v source]
      (mkImageUpload (insertEmbed (quill this) index type v source)
                     (options this)).

(** [[].forEach.call(files, f)] *)
Fixpoint forEach {A : Type} (files : list A) (f : A -> M unit) : M unit :=
  match files with
  | [] => ret tt
  | file :: rest => f file ;; forEach rest f
  end.

(** [constructor(quill, options = {})] *)
Definition constructor (quill : Q) (options : option Options.t)
  : outcome unit :=
  let this :=
    mkImageUpload quill
      (match options with Some o => o | None => Options.empty end) in
  (emit (ToolbarAddHandler "image" toolbar_image) ;;
   emit (RootAddEventListener "drop" root_drop) ;;
   emit (RootAddEventListener "paste" root_paste)) this.

(** [selectLocalImage()]: the picker is opened; [input.onchange] runs
    later. *)
Definition selectLocalImage : M unit :=
  emit (InputClick input_onchange).

(** [checkBeforeSend(file, next)] *)
Definition checkBeforeSend (file : entry) (next : entry -> M unit) : M unit :=
  next file.

(** [insert(dataUrl)] *)
Definition insert (dataUrl : value) : M unit :=
  selection <- quill_getSelection ;;
  length <- quill_getLength ;;
  let index := or_number (option_map Range.index selection) length in
  quill_insertEmbed index "image" dataUrl "user".

(** [uploadImageCallbackOK(response, next)] *)
Definition uploadImageCallbackOK (response : value) (next : value -> M unit)
  : M unit :=
  next response.

(** [uploadImageCallbackKO(error)] *)
Definition uploadImageCallbackKO (error : UploadError.t) : M unit :=
  emit (Alert error).

Definition apply_data_cont (next : data_cont) : value -> M unit :=
  match next with
  | k_insert => insert
  end.

(** [callbackOK(response, next)], for the callee [sendToServer] resolved. *)
Definition call_callbackOK (c : callee) (response : value) (next : data_cont)
  : M unit :=
  emit (CallbackOK c response next) ;;
  match c with
  | supplied _ => ret tt
  | own_method => uploadImageCallbackOK response (apply_data_cont next)
  end.

(** [callbackKO(error)] *)
Definition call_callbackKO (c : callee) (error : UploadError.t) : M unit :=
  emit (CallbackKO c error) ;;
  match c with
  | supplied _ => ret tt
  | own_method => uploadImageCallbackKO error
  end.

(** [sendToServer(file)].  [fd.append(name, file)] sends a [Blob] as a
    file and anything else as its string conversion; [readAsDataURL] throws
    a [TypeError] when its argument is not a [Blob]. *)
Definition sendToServer (file : entry) : M unit :=
  opts <- this_options ;;
  match Options.customUploader opts with
  | Some customUploader => emit (CustomUploader customUploader file k_insert)
  | None =>
    let url := Options.url opts in
    let method := or_string (Options.method opts) "POST" in
    let name := or_string (Options.name opts) "image" in
    let headers := or_empty (Options.headers opts) in
    let callbackOK := resolve (Options.callbackOK opts) in
    let callbackKO := resolve (Options.callbackKO opts) in
    match if_truthy url with
    | Some url =>
      let fd : FormData := [(name, form_value_of file)] in
      let fd :=
        match Options.csrf opts with
        | Some csrf =>
          (fd ++ [(Csrf.token csrf, form_string (Csrf.hash csrf))])%list
        | None => fd
        end in
      let xhr := XMLHttpRequest.open method url true in
      let xhr := fold_left XMLHttpRequest.setRequestHeader headers xhr in
      let xhr := XMLHttpRequest.set_onload xhr (xhr_onload callbackOK callbackKO) in
      let xhr :=
        match Options.withCredentials opts with
        | Some true => XMLHttpRequest.set_withCredentials xhr true
        | _ => xhr
        end in
      emit (XhrSend xhr fd)
    | None =>
      emit (ReadAsDataURL (send_reader_onload callbackOK) file) ;;
      match file with
      | a_file _ => ret tt
      | an_item _ => throw TypeError
      end
    end
  end.

(** The arrow function [handlePaste] gives to [readFiles]; its parameter is
    named [dataUrl] in the source. *)
Definition paste_callback (dataUrl : entry) : M unit :=
  selection <- quill_getSelection ;;
  match selection with
  | Some _ => ret tt
  | None => emit (SetTimeout (paste_timeout dataUrl) 0)
  end.

Definition apply_file_cont (next : file_cont) : entry -> M unit :=
  match next with
  | k_sendToServer => sendToServer
  | k_paste => paste_callback
  end.

(** [checkBeforeSend(file, next)] after
    [this.options.checkBeforeSend || this.checkBeforeSend.bind(this)] *)
Definition call_checkBeforeSend (file : entry) (next : file_cont) : M unit :=
  opts <- this_options ;;
  let c := resolve (Options.checkBeforeSend opts) in
  emit (CheckBeforeSend c file next) ;;
  match c with
  | supplied _ => ret tt
  | own_method => checkBeforeSend file (apply_file_cont next)
  end.

(** [readFiles(files, callback)] *)
Definition readFiles (files : list entry) (callback : file_cont) : M unit :=
  forEach files (fun file =>
    if negb (is_image (entry_type file)) then ret tt
    else
      match entry_blob file with
      | Some blob =>
        emit (ReadAsDataURL (read_reader_onload file callback) (a_file blob))
      | None => ret tt
      end).

(** [handleDrop(evt)] *)
Definition handleDrop (evt : Dom.DropEvent) : M unit :=
  emit PreventDefault ;;
  match Dom.dataTransfer_files evt with
  | Some (file :: rest) =>
    match Dom.caretRangeFromPoint document with
    | Some caretRangeFromPoint =>
      match caretRangeFromPoint (Dom.clientX evt) (Dom.clientY evt) with
      | Some range =>
        if Dom.has_selection document then
          emit (SetBaseAndExtent
                  (Dom.startContainer range) (Dom.startOffset range)
                  (Dom.startContainer range) (Dom.startOffset range))
        else ret tt
      | None => ret tt
      end
    | None => ret tt
    end ;;
    readFiles (map a_file (file :: rest)) k_sendToServer
  | _ => ret tt
  end.

(** [handlePaste(evt)] *)
Definition handlePaste (evt : Dom.PasteEvent) : M unit :=
  match Dom.clipboardData_items evt with
  | Some (item :: rest) => readFiles (map an_item (item :: rest)) k_paste
  | _ => ret tt
  end.

(** *** What the browser fires *)

Inductive occurrence : Type :=
| click
| drop (evt : Dom.DropEvent)
| paste (evt : Dom.PasteEvent)
| change (files : list File.t)
| xhr_load (status : Z) (statusText responseText : string)
| reader_load (result : string)
| timer.

(** [input.onchange] *)
Definition on_input_change (files : list File.t) : M unit :=
  match files with
  | [] => throw TypeError
  | file :: _ =>
    if is_image (File.type file) then
      call_checkBeforeSend (a_file file) k_sendToServer
    else emit (ConsoleWarn "You could only upload images.")
  end.

(** [xhr.onload] *)
Definition on_xhr_load (callbackOK callbackKO : callee)
  (status : Z) (statusText responseText : string) : M unit :=
  if (status =? 200)%Z then
    match JSON_parse responseText with
    | Some response => call_callbackOK callbackOK (VParsed response) k_insert
    | None => throw SyntaxError
    end
  else
    call_callbackKO callbackKO
      (UploadError.mk status statusText responseText).

(** [reader.onload] of [sendToServer] *)
Definition on_send_reader_load (callbackOK : callee) (result : string)
  : M unit :=
  call_callbackOK callbackOK (VString result) k_insert.

(** [reader.onload] of [readFiles]; [evt.target.result] is not used. *)
Definition on_read_reader_load (file : entry) (callback : file_cont)
  (result : string) : M unit :=
  call_checkBeforeSend file callback.

(** The [setTimeout] callback of [handlePaste] *)
Definition on_paste_timeout (dataUrl : entry) : M unit :=
  sendToServer dataUrl.

Definition fire (h : handler) (o : occurrence) : M unit :=
  match h, o with
  | toolbar_image, click => selectLocalImage
  | root_drop, drop evt => handleDrop evt
  | root_paste, paste evt => handlePaste evt
  | input_onchange, change files => on_input_change files
  | xhr_onload callbackOK callbackKO, xhr_load status statusText responseText =>
    on_xhr_load callbackOK callbackKO status statusText responseText
  | send_reader_onload callbackOK, reader_load result =>
    on_send_reader_load callbackOK result
  | read_reader_onload file callback, reader_load result =>
    on_read_reader_load file callback result
  | paste_timeout dataUrl, timer => on_paste_timeout dataUrl
  | _, _ => ret tt
  end.

End ImageUpload.

Arguments mkOutcome {Q A} completed trace this_after.
Arguments completed {Q A} o.
Arguments trace {Q A} o.
Arguments this_after {Q A} o.

(** ** A reference editor

    A document is a list of leaves; the length is the number of leaves and
    an embed is one leaf.  It implements [Quill] so that the class can be
    run on concrete documents and selections. *)

Module Editor.
Inductive leaf : Type :=
| Char (c : ascii)
| Embed (type : string) (v : value).

Record t : Type := mk {
  selection : option Range.t;
  contents : list leaf }.

Definition of_text (selection : option Range.t) (text : string) : t :=
  mk selection (map Char (list_ascii_of_string text)).

Definition insert_at (e : t) (index : Z) (type : string) (v : value)
  (source : string) : t :=
  let n := Z.to_nat index in
  mk (selection e) (firstn n (contents e) ++ Embed type v :: skipn n (contents e)).
End Editor.

#[export] Instance Editor_Quill : Quill Editor.t := {
  getSelection := Editor.selection;
  getLength := fun e => Z.of_nat (List.length (Editor.contents e));
  insertEmbed := Editor.insert_at }.

(** ** Observations on a trace *)

Definition is_custom_upload (e : event) : bool :=
  match e with
  | CustomUploader _ _ _ => true
  | _ => false
  end.

(** The built-in send logic of [sendToServer]: the request or the local
    read. *)
Definition is_builtin_send (e : event) : bool :=
  match e with
  | XhrSend _ _ | ReadAsDataURL (send_reader_onload _) _ => true
  | _ => false
  end.

Definition is_network_request (e : event) : bool :=
  match e with
  | XhrSend _ _ => true
  | _ => false
  end.

Definition is_check (e : event) : bool :=
  match e with
  | CheckBeforeSend _ _ _ => true
  | _ => false
  end.

Definition is_success_callback (e : event) : bool :=
  match e with
  | CallbackOK _ _ _ => true
  | _ => false
  end.

Definition is_failure_callback (e : event) : bool :=
  match e with
  | CallbackKO _ _ => true
  | _ => false
  end.

Definition is_insertion (e : event) : bool :=
  match e with
  | InsertEmbed _ _ _ _ => true
  | _ => false
  end.

Definition is_alert (e : event) : bool :=
  match e with
  | Alert _ => true
  | _ => false
  end.

Definition is_timer (e : event) : bool :=
  match e with
  | SetTimeout _ _ => true
  | _ => false
  end.

(** The indices at which a trace embeds something. *)
Definition embed_indices (tr : list event) : list Z :=
  flat_map (fun e => match e with
                     | InsertEmbed index _ _ _ => [index]
                     | _ => []
                     end) tr.

(** The reads [readFiles] starts for a list of entries. *)
Definition reads_started (files : list entry) (callback : file_cont)
  : list event :=
  flat_map (fun file =>
    if is_image (entry_type file) then
      match entry_blob file with
      | Some blob =>
        [ReadAsDataURL (read_reader_onload file callback) (a_file blob)]
      | None => []
      end
    else []) files.

(** ** Concrete inputs

    Used to run the class. *)

Definition png : File.t := File.mk "image/png" "PNG".
Definition pdf : File.t := File.mk "application/pdf" "%PDF".
Definition png_item : DataTransferItem.t :=
  DataTransferItem.mk "image/png" (Some png).

Definition hello (selection : option Range.t) (o : Options.t)
  : @ImageUpload Editor.t :=
  mkImageUpload (Editor.of_text selection "hello") o.

(** Response bodies are written with an apostrophe for each double quote
    of the JSON text. *)
Fixpoint quoted (s : string) : string :=
  match s with
  | String c r =>
    String (if Ascii.eqb c "'" then ascii_of_nat 34 else c) (quoted r)
  | EmptyString => EmptyString
  end.

(** A page without [document.caretRangeFromPoint]. *)
Definition page : Dom.Document := Dom.mkDocument None false.

(** [{url: '/upload'}] *)
Definition upload_options : Options.t :=
  Options.mk (Some "/upload") None None None None None None None None None.

(** ** Further observations on a trace *)

Definition is_read (e : event) : bool :=
  match e with
  | ReadAsDataURL _ _ => true
  | _ => false
  end.

Definition is_item (file : entry) : bool :=
  match file with
  | a_file _ => false
  | an_item _ => true
  end.



(** The caret call [handleDrop] makes before reading the files. *)
Definition caret_call (document : Dom.Document) (evt : Dom.DropEvent)
  : list event :=
  match Dom.caretRangeFromPoint document with
  | Some caretRangeFromPoint =>
    match caretRangeFromPoint (Dom.clientX evt) (Dom.clientY evt) with
    | Some range =>
      if Dom.has_selection document then
        [SetBaseAndExtent (Dom.startContainer range) (Dom.startOffset range)
           (Dom.startContainer range) (Dom.startOffset range)]
      else []
    | None => []
    end
  | None => []
  end.

(** ** The earlier variant of the class

    The toolbar-only file that has no custom uploader, no field name, no
    CSRF pair and no local read: [sendToServer] always sends a request, and
    [input.onchange] hands [this.checkBeforeSend] and [this.sendToServer]
    over without [bind]. *)

Module Legacy.
Section Legacy.

Context {Q : Type} `{Quill Q}.

(** [this.options] inside a method: a method called without a receiver has
    [this] undefined, and the read throws a [TypeError]. *)
Definition receiver_options (bound : bool) : @M Q Options.t :=
  if bound then this_options else throw TypeError.

(** [sendToServer(file)]; [bound] tells whether the call has a receiver. *)
Definition sendToServer (bound : bool) (file : entry) : @M Q unit :=
  bind (receiver_options bound) (fun opts =>
    let url := or_string (Options.url opts) "your-url.com" in
    let method := or_string (Options.method opts) "POST" in
    let headers := or_empty (Options.headers opts) in
    let callbackOK := resolve (Options.callbackOK opts) in
    let callbackKO := resolve (Options.callbackKO opts) in
    let fd : FormData := [("image", form_value_of file)] in
    let xhr := XMLHttpRequest.open method url true in
    let xhr := fold_left XMLHttpRequest.setRequestHeader headers xhr in
    let xhr :=
      XMLHttpRequest.set_onload xhr (xhr_onload callbackOK callbackKO) in
    emit (XhrSend xhr fd)).

(** [input.onchange]: the continuation given to the check is
    [this.sendToServer], not bound. *)
Definition on_input_change (files : list File.t) : @M Q unit :=
  match files with
  | [] => throw TypeError
  | file :: _ =>
    if is_image (File.type file) then
      bind this_options (fun opts =>
        let c := resolve (Options.checkBeforeSend opts) in
        bind (emit (CheckBeforeSend c (a_file file) k_sendToServer))
          (fun _ =>
             match c with
             | supplied _ => ret tt
             | own_method =>
               checkBeforeSend (a_file file) (sendToServer false)
             end))
    else emit (ConsoleWarn "You could only upload images.")
  end.

End Legacy.
End Legacy.

(** ** The JSON parser decides every text *)

Module JSON_facts.
Import JSON.

Lemma skip_ws_length (s : string) :
  (String.length (skip_ws s) <= String.length s)%nat.
Proof.
  induction s as [|c r IH]; simpl; [lia|].
  destruct (is_ws c); simpl; lia.
Qed.

Lemma scan_string_length (s lex rest : string) :
  scan_string s = Some (lex, rest) ->
  (String.length rest < String.length s)%nat.
Proof.
  remember (String.length s) as n eqn:Hn.
  revert s lex rest Hn.
  induction n as [n IH] using lt_wf_ind.
  intros s lex rest Hn H. destruct s as [|c r]; simpl in H; [discriminate|].
  simpl in Hn.
  destruct (is_quote c).
  { inversion H; subst. lia. }
  destruct (Ascii.eqb c "\").
  - destruct r as [|e r1]; [discriminate|]. simpl in Hn.
    destruct (is_simple_escape e).
    + destruct (scan_string r1) as [[l1 t1]|] eqn:E; [|discriminate].
      inversion H; subst.
      pose proof (IH (String.length r1) ltac:(lia) r1 l1 rest eq_refl E). lia.
    + destruct (Ascii.eqb e "u"); [|discriminate].
      destruct r1 as [|h1 [|h2 [|h3 [|h4 r2]]]]; try discriminate.
      destruct (is_hex h1 && is_hex h2 && is_hex h3 && is_hex h4); [|discriminate].
      destruct (scan_string r2) as [[l1 t1]|] eqn:E; [|discriminate].
      inversion H; subst. simpl in *.
      pose proof (IH (String.length r2) ltac:(lia) r2 l1 rest eq_refl E). lia.
  - destruct (code c <? 32)%nat; [discriminate|].
    destruct (scan_string r) as [[l1 t1]|] eqn:E; [|discriminate].
    inversion H; subst.
    pose proof (IH (String.length r) ltac:(lia) r l1 rest eq_refl E). lia.
Qed.

Lemma span_digits_length (s d rest : string) :
  span_digits s = (d, rest) -> (String.length rest <= String.length s)%nat.
Proof.
  revert d rest. induction s as [|c r IH]; simpl; intros d rest H.
  - inversion H; subst; simpl; lia.
  - destruct (is_digit c).
    + destruct (span_digits r) as [d1 t1]. inversion H; subst.
      specialize (IH d1 rest eq_refl). lia.
    + inversion H; subst; simpl; lia.
Qed.

Lemma scan_sign_length (s sg rest : string) :
  scan_sign s = (sg, rest) -> (String.length rest <= String.length s)%nat.
Proof.
  destruct s as [|c r]; simpl; intros H.
  - inversion H; subst; simpl; lia.
  - destruct (Ascii.eqb c "-"); inversion H; subst; simpl; lia.
Qed.

Lemma scan_int_length (s i rest : string) :
  scan_int s = Some (i, rest) -> (String.length rest < String.length s)%nat.
Proof.
  destruct s as [|c r]; simpl; intros H; [discriminate|].
  destruct (Ascii.eqb c "0"); [inversion H; subst; lia|].
  destruct (is_digit c); [|discriminate].
  destruct (span_digits r) as [d t] eqn:E. inversion H; subst.
  apply span_digits_length in E. lia.
Qed.

Lemma scan_frac_length (s f rest : string) :
  scan_frac s = Some (f, rest) -> (String.length rest <= String.length s)%nat.
Proof.
  destruct s as [|c r]; simpl; intros H; [inversion H; subst; simpl; lia|].
  destruct (Ascii.eqb c ".").
  - destruct (span_digits r) as [d t] eqn:E. apply span_digits_length in E.
    destruct d; [discriminate|]. inversion H; subst. lia.
  - inversion H; subst; simpl; lia.
Qed.

Lemma scan_exp_length (s e rest : string) :
  scan_exp s = Some (e, rest) -> (String.length rest <= String.length s)%nat.
Proof.
  destruct s as [|c r]; simpl; intros H; [inversion H; subst; simpl; lia|].
  destruct (Ascii.eqb c "e" || Ascii.eqb c "E").
  - destruct r as [|p r'].
    + simpl in H. discriminate.
    + destruct (Ascii.eqb p "+" || Ascii.eqb p "-").
      * destruct (span_digits r') as [d t] eqn:E. apply span_digits_length in E.
        destruct d; [discriminate|]. inversion H; subst. simpl. lia.
      * destruct (span_digits (String p r')) as [d t] eqn:E.
        apply span_digits_length in E.
        destruct d; [discriminate|]. inversion H; subst. simpl in *. lia.
  - inversion H; subst; simpl; lia.
Qed.

Lemma scan_number_length (s lex rest : string) :
  scan_number s = Some (lex, rest) ->
  (String.length rest < String.length s)%nat.
Proof.
  unfold scan_number. intros H.
  destruct (scan_sign s) as [sg r0] eqn:E0. apply scan_sign_length in E0.
  destruct (scan_int r0) as [[i r1]|] eqn:E1; [|discriminate].
  apply scan_int_length in E1.
  destruct (scan_frac r1) as [[f r2]|] eqn:E2; [|discriminate].
  apply scan_frac_length in E2.
  destruct (scan_exp r2) as [[e r3]|] eqn:E3; [|discriminate].
  apply scan_exp_length in E3.
  inversion H; subst. lia.
Qed.

Lemma expect_length (w s rest : string) :
  expect w s = Some rest ->
  (String.length rest + String.length w = String.length s)%nat.
Proof.
  revert s. induction w as [|a w IH]; simpl; intros s H.
  - inversion H; subst; lia.
  - destruct s as [|c r]; [discriminate|].
    destruct (Ascii.eqb a c); [|discriminate].
    apply IH in H. simpl. lia.
Qed.

Lemma parse_literal_length (w : string) (v v' : json) (s rest : string) :
  w <> "" -> parse_literal w v s = Parsed v' rest ->
  (String.length rest < String.length s)%nat.
Proof.
  unfold parse_literal. intros Hw H.
  destruct (expect w s) as [t|] eqn:E; [|discriminate].
  inversion H; subst. apply expect_length in E.
  destruct w; [congruence|]. simpl in E. lia.
Qed.

Ltac length_facts :=
  repeat match goal with
  | H : skip_ws ?s = String _ _ |- _ =>
    let L := fresh "L" in
    pose proof (skip_ws_length s) as L; rewrite H in L; simpl in L; revert H
  | H : scan_string _ = Some _ |- _ =>
    apply scan_string_length in H; simpl in H
  | H : scan_number _ = Some _ |- _ =>
    apply scan_number_length in H; simpl in H
  | H : parse_literal _ _ _ = Parsed _ _ |- _ =>
    apply parse_literal_length in H; [simpl in H | discriminate]
  end; intros.

Ltac branch :=
  match goal with
  | H : context [if ?b then _ else _] |- _ => destruct b eqn:?
  | H : context [match skip_ws ?s with _ => _ end] |- _ =>
    destruct (skip_ws s) eqn:?
  | H : context [match scan_string ?s with _ => _ end] |- _ =>
    destruct (scan_string s) as [[? ?]|] eqn:?
  | H : context [match scan_number ?s with _ => _ end] |- _ =>
    destruct (scan_number s) as [[? ?]|] eqn:?
  | H : Parsed _ _ = Parsed _ _ |- _ => inversion H; subst; clear H
  | H : Reject = Parsed _ _ |- _ => discriminate H
  | H : Exhausted = Parsed _ _ |- _ => discriminate H
  | H : Reject = Exhausted |- _ => discriminate H
  | H : Parsed _ _ = Exhausted |- _ => discriminate H
  end.

(** Every successful parse consumes at least one character. *)
Lemma parse_consumes (fuel : nat) :
  (forall s v rest, parse_value fuel s = Parsed v rest ->
     (String.length rest < String.length s)%nat) /\
  (forall acc s v rest, parse_elements fuel acc s = Parsed v rest ->
     (String.length rest < String.length s)%nat) /\
  (forall acc s v rest, parse_members fuel acc s = Parsed v rest ->
     (String.length rest < String.length s)%nat).
Proof.
  induction fuel as [|f [IHv [IHe IHm]]].
  { repeat split; intros; discriminate. }
  repeat split.
  - intros s v rest H. simpl in H.
    destruct s as [|c r]; [discriminate|]. simpl.
    repeat branch; length_facts;
      try match goal with
          | H : parse_members _ _ _ = Parsed _ _ |- _ => apply IHm in H; simpl in H
          | H : parse_elements _ _ _ = Parsed _ _ |- _ => apply IHe in H; simpl in H
          end; try lia.
  - intros acc s v rest H. simpl in H.
    destruct (parse_value f s) as [v1 r1| |] eqn:E; try discriminate.
    apply IHv in E.
    repeat branch; length_facts;
      try match goal with
          | H : parse_elements _ _ (skip_ws ?s) = Parsed _ _ |- _ =>
            pose proof (skip_ws_length s); apply IHe in H
          end; try lia.
  - intros acc s v rest H. simpl in H.
    destruct s as [|q r]; [discriminate|]. simpl.
    destruct (is_quote q); [|discriminate].
    destruct (scan_string r) as [[key r1]|] eqn:E1; [|discriminate].
    destruct (skip_ws r1) as [|c2 r2] eqn:E2; [discriminate|].
    destruct (Ascii.eqb c2 ":"); [|discriminate].
    destruct (parse_value f (skip_ws r2)) as [v1 r3| |] eqn:E3; try discriminate.
    apply IHv in E3. pose proof (skip_ws_length r2).
    destruct (skip_ws r3) as [|c4 r4] eqn:E4; [discriminate|].
    length_facts.
    destruct (Ascii.eqb c4 ",").
    + apply IHm in H. pose proof (skip_ws_length r4). lia.
    + destruct (Ascii.eqb c4 "}"); [|discriminate].
      inversion H; subst. lia.
Qed.

Lemma parse_enough_fuel (fuel : nat) :
  (forall s, (2 * String.length s < fuel)%nat ->
     parse_value fuel s <> Exhausted) /\
  (forall acc s, (2 * String.length s + 1 < fuel)%nat ->
     parse_elements fuel acc s <> Exhausted) /\
  (forall acc s, (2 * String.length s < fuel)%nat ->
     parse_members fuel acc s <> Exhausted).
Proof.
  induction fuel as [|f [IHv [IHe IHm]]].
  { repeat split; intros; lia. }
  repeat split.
  - intros s Hf H. simpl in H.
    destruct s as [|c r]; [discriminate|]. simpl in Hf.
    destruct (Ascii.eqb c "{").
    { destruct (skip_ws r) as [|c1 r1] eqn:E; [discriminate|].
      destruct (Ascii.eqb c1 "}"); [discriminate|].
      revert H. apply IHm. length_facts. simpl. lia. }
    destruct (Ascii.eqb c "[").
    { destruct (skip_ws r) as [|c1 r1] eqn:E; [discriminate|].
      destruct (Ascii.eqb c1 "]"); [discriminate|].
      revert H. apply IHe. length_facts. simpl. lia. }
    unfold parse_literal in H.
    repeat match goal with
           | H : context [if ?b then _ else _] |- _ => destruct b
           | H : context [match ?x with _ => _ end] |- _ => destruct x as [[? ?]|]
           | H : context [match ?x with _ => _ end] |- _ => destruct x
           end; discriminate.
  - intros acc s Hf H. simpl in H.
    destruct (parse_value f s) as [v1 r1| |] eqn:E; try discriminate.
    + apply (proj1 (parse_consumes f)) in E.
      destruct (skip_ws r1) as [|c r2] eqn:E2; [discriminate|].
      length_facts.
      destruct (Ascii.eqb c ",").
      * revert H. apply IHe. pose proof (skip_ws_length r2). lia.
      * destruct (Ascii.eqb c "]"); discriminate.
    + revert E. apply IHv. lia.
  - intros acc s Hf H. simpl in H.
    destruct s as [|q r]; [discriminate|]. simpl in Hf.
    destruct (is_quote q); [|discriminate].
    destruct (scan_string r) as [[key r1]|] eqn:E1; [|discriminate].
    destruct (skip_ws r1) as [|c2 r2] eqn:E2; [discriminate|].
    destruct (Ascii.eqb c2 ":"); [|discriminate].
    pose proof (skip_ws_length r2).
    length_facts.
    destruct (parse_value f (skip_ws r2)) as [v1 r3| |] eqn:E3; try discriminate.
    + apply (proj1 (parse_consumes f)) in E3.
      destruct (skip_ws r3) as [|c4 r4] eqn:E4; [discriminate|].
      length_facts.
      destruct (Ascii.eqb c4 ",").
      * revert H. apply IHm. pose proof (skip_ws_length r4). lia.
      * destruct (Ascii.eqb c4 "}"); discriminate.
    + revert E3. apply IHv. lia.
Qed.

(** [parse_text] always decides: it accepts the text or rejects it. *)
Lemma parse_text_total (text : string) : parse_text text <> Exhausted.
Proof.
  unfold parse_text. intros H.
  destruct (parse_value (fuel_for text) (skip_ws text)) as [v r| |] eqn:E.
  - destruct (skip_ws r); discriminate.
  - discriminate.
  - revert E. apply (proj1 (parse_enough_fuel (fuel_for text))).
    unfold fuel_for. pose proof (skip_ws_length text). lia.
Qed.

(** [parse] returns [None] exactly on the texts the grammar rejects. *)
Lemma parse_None_iff (text : string) :
  parse text = None <-> parse_text text = Reject.
Proof.
  unfold parse. pose proof (parse_text_total text) as T.
  destruct (parse_text text); split; intros; congruence.
Qed.

End JSON_facts.

(** ** Properties of the class *)

Section Properties.

Context {Q : Type} `{Quill Q}.

Variable JSON_parse : string -> option JSON.json.

Variable document : Dom.Document.

Local Abbreviation This := (@ImageUpload Q).

Lemma insert_outcome (this : This) (dataUrl : value) :
  insert dataUrl this =
  let index :=
    or_number (option_map Range.index (getSelection (quill this)))
              (getLength (quill this)) in
  mkOutcome (normal tt) [InsertEmbed index "image" dataUrl "user"]
    (mkImageUpload (insertEmbed (quill this) index "image" dataUrl "user")
                   (options this)).
Proof. reflexivity. Qed.

(** Where [insert] embeds: at a selection whose index is not 0, and at the
    end of the document when there is no selection. *)
Lemma insert_index (this : This) (dataUrl : value) :
  embed_indices (trace (insert dataUrl this))
  = [match getSelection (quill this) with
     | Some range =>
       if (Range.index range =? 0)%Z then getLength (quill this)
       else Range.index range
     | None => getLength (quill this)
     end].
Proof.
  rewrite insert_outcome. simpl.
  destruct (getSelection (quill this)); reflexivity.
Qed.

Lemma sendToServer_custom (this : This) (file : entry) (f : UserFn) :
  Options.customUploader (options this) = Some f ->
  sendToServer file this =
  mkOutcome (normal tt) [CustomUploader f file k_insert] this.
Proof.
  intros E. unfold sendToServer, bind, this_options. simpl. rewrite E.
  reflexivity.
Qed.

Lemma sendToServer_builtin (this : This) (file : entry) :
  Options.customUploader (options this) = None ->
  exists e, trace (sendToServer file this) = [e] /\ is_builtin_send e = true.
Proof.
  intros E. unfold sendToServer, bind, this_options. simpl. rewrite E.
  destruct (if_truthy (Options.url (options this))) as [u|].
  - eexists. split; reflexivity.
  - destruct file; eexists; split; reflexivity.
Qed.

(** C1. Per call of [sendToServer] exactly one of the two send paths runs.
    With [options.customUploader] set, the only call made is the custom
    uploader, on the file and the insertion continuation, whatever
    [options.url] is; without it, no custom uploader is called and the one
    call made belongs to the built-in logic (the request or the local
    read). *)
Theorem sendToServer_one_path (this : This) (file : entry) :
  let o := sendToServer file this in
  match Options.customUploader (options this) with
  | Some f =>
    o = mkOutcome (normal tt) [CustomUploader f file k_insert] this
  | None =>
    exists e, trace o = [e] /\ is_builtin_send e = true
  end /\
  existsb is_custom_upload (trace o)
  = is_set (Options.customUploader (options this)) /\
  existsb is_builtin_send (trace o)
  = negb (is_set (Options.customUploader (options this))).
Proof.
  intros o. subst o.
  destruct (Options.customUploader (options this)) as [f|] eqn:E.
  - rewrite (sendToServer_custom this file f E). simpl. auto.
  - destruct (sendToServer_builtin this file E) as [e [Ht He]].
    rewrite Ht. simpl. rewrite He.
    repeat split; [eauto | destruct e; simpl in *; congruence].
Qed.


Lemma on_xhr_load_outcome (cOK cKO : callee) (status : Z)
  (statusText body : string) (this : This) :
  on_xhr_load JSON_parse cOK cKO status statusText body this =
  if (status =? 200)%Z then
    match JSON_parse body with
    | Some response =>
      match cOK with
      | supplied _ =>
        mkOutcome (normal tt) [CallbackOK cOK (VParsed response) k_insert] this
      | own_method =>
        let o := insert (VParsed response) this in
        mkOutcome (normal tt)
          (CallbackOK cOK (VParsed response) k_insert :: trace o)
          (this_after o)
      end
    | None => mkOutcome (throws SyntaxError) [] this
    end
  else
    let error := UploadError.mk status statusText body in
    mkOutcome (normal tt)
      (CallbackKO cKO error ::
       match cKO with supplied _ => [] | own_method => [Alert error] end)
      this.
Proof.
  unfold on_xhr_load.
  destruct (status =? 200)%Z.
  - destruct (JSON_parse body); [|reflexivity]. destruct cOK; reflexivity.
  - destruct cKO; reflexivity.
Qed.

(** C4 (amended). On the built-in network path the success callback is
    called if and only if the status is exactly 200 and the body parses as
    JSON; on every other status the first call is the failure callback, on
    the object made of the status, the status text and the body, and the
    success callback is not called. *)
Theorem xhr_onload_success_iff (cOK cKO : callee) (status : Z)
  (statusText body : string) (this : This) :
  let o := fire JSON_parse document (xhr_onload cOK cKO)
             (xhr_load status statusText body) this in
  ((exists response, In (CallbackOK cOK response k_insert) (trace o)) <->
   (status = 200%Z /\ JSON_parse body <> None)) /\
  existsb is_success_callback (trace o)
  = ((status =? 200)%Z && is_set (JSON_parse body)) /\
  (status <> 200%Z ->
   existsb is_success_callback (trace o) = false /\
   exists rest,
     trace o
     = CallbackKO cKO (UploadError.mk status statusText body) :: rest).
Proof.
  intros o. subst o. simpl. rewrite on_xhr_load_outcome.
  destruct (Z.eqb_spec status 200) as [E|E].
  - destruct (JSON_parse body) as [j|] eqn:P.
    + split; [split|split].
      * intros _. split; congruence.
      * intros _. exists (VParsed j). destruct cOK; simpl; auto.
      * destruct cOK; reflexivity.
      * intros N. congruence.
    + split; [split|split].
      * intros [r []].
      * intros [_ N]. congruence.
      * reflexivity.
      * intros N. congruence.
  - split; [split|split].
    + intros [r HI]. destruct cKO; simpl in HI; intuition congruence.
    + intros [E' _]. congruence.
    + destruct cKO; reflexivity.
    + intros _. split; [destruct cKO; reflexivity | eexists; reflexivity].
Qed.

(** C6 (amended). The handler of a network response throws exactly when
    the status is 200 and the body does not parse as JSON: [JSON.parse]
    throws a [SyntaxError] out of the handler and no callback is called.  On
    every other response the handler completes normally, and a status other
    than 200 is delivered to the failure callback. *)
Theorem xhr_onload_throws_iff (cOK cKO : callee) (status : Z)
  (statusText body : string) (this : This) :
  let o := fire JSON_parse document (xhr_onload cOK cKO)
             (xhr_load status statusText body) this in
  (completed o = throws SyntaxError <->
   (status = 200%Z /\ JSON_parse body = None)) /\
  (completed o = normal tt \/
   (completed o = throws SyntaxError /\ trace o = [])) /\
  (status <> 200%Z ->
   completed o = normal tt /\
   In (CallbackKO cKO (UploadError.mk status statusText body)) (trace o)).
Proof.
  intros o. subst o. simpl. rewrite on_xhr_load_outcome.
  destruct (Z.eqb_spec status 200) as [E|E].
  - destruct (JSON_parse body) as [j|] eqn:P.
    + split; [split|split].
      * destruct cOK; simpl; intros N; discriminate.
      * intros [_ N]. discriminate.
      * left. destruct cOK; reflexivity.
      * intros N. congruence.
    + split; [split|split].
      * intros _. split; congruence.
      * intros _. reflexivity.
      * right. split; reflexivity.
      * intros N. congruence.
  - split; [split|split].
    + simpl. intros N. discriminate.
    + intros [E' _]. congruence.
    + left. reflexivity.
    + intros _. split; [reflexivity | simpl; auto].
Qed.



(** C9. [insert] keeps no state of its own.  Each call makes one embed
    insertion whose index is computed from the selection and the length of
    the editor at that call; a call leaves the options as they were, and a
    second call with the same data URL, made after the editor has moved to
    any other state, does what a first call on that state does, whatever
    the options are. *)
Theorem insert_stateless (this : This) (q2 : Q) (opts' : Options.t)
  (dataUrl : value) :
  let index_at (q : Q) :=
    or_number (option_map Range.index (getSelection q)) (getLength q) in
  let o1 := insert dataUrl this in
  let o2 := insert dataUrl (mkImageUpload q2 (options (this_after o1))) in
  trace o1 = [InsertEmbed (index_at (quill this)) "image" dataUrl "user"] /\
  trace o2 = [InsertEmbed (index_at q2) "image" dataUrl "user"] /\
  options (this_after o1) = options this /\
  o2 = insert dataUrl (mkImageUpload q2 (options this)) /\
  trace (insert dataUrl (mkImageUpload q2 opts')) = trace o2.
Proof. repeat split. Qed.

Lemma readFiles_outcome (files : list entry) (callback : file_cont)
  (this : This) :
  readFiles files callback this
  = mkOutcome (normal tt) (reads_started files callback) this.
Proof.
  unfold readFiles. induction files as [|file rest IH]; [reflexivity|].
  simpl. unfold bind. rewrite <- (app_nil_l rest) at 1. simpl.
  destruct (is_image (entry_type file)); simpl.
  - destruct (entry_blob file); simpl; rewrite IH; reflexivity.
  - rewrite IH. reflexivity.
Qed.

Lemma reads_started_app (xs ys : list entry) (callback : file_cont) :
  reads_started (xs ++ ys) callback
  = (reads_started xs callback ++ reads_started ys callback)%list.
Proof. apply flat_map_app. Qed.

(** C5. A file whose type does not start with [image/] reaches neither the
    pre-send check, nor [sendToServer], nor [insert].  Chosen in the picker
    it causes one console warning and nothing else: no alert, the instance
    and its editor unchanged.  Given to [readFiles] it causes no call at
    all, alone or within any batch. *)
Theorem non_image_file_dropped (this : This) (file : entry) :
  is_image (entry_type file) = false ->
  (forall f rest, file = a_file f ->
     fire JSON_parse document input_onchange (change (f :: rest)) this
     = mkOutcome (normal tt)
         [ConsoleWarn "You could only upload images."] this) /\
  (forall callback,
     readFiles [file] callback this = mkOutcome (normal tt) [] this) /\
  (forall before after callback,
     readFiles (before ++ file :: after) callback this
     = readFiles (before ++ after) callback this).
Proof.
  intros Hn. split; [|split].
  - intros f rest ->. simpl in *. unfold on_input_change. rewrite Hn.
    reflexivity.
  - intros callback. rewrite readFiles_outcome. simpl. rewrite Hn.
    reflexivity.
  - intros before after callback. rewrite !readFiles_outcome.
    rewrite !reads_started_app. simpl. rewrite Hn. reflexivity.
Qed.

Lemma call_checkBeforeSend_trace (file : entry) (next : file_cont)
  (this : This) :
  let c := resolve (Options.checkBeforeSend (options this)) in
  trace (call_checkBeforeSend file next this)
  = CheckBeforeSend c file next ::
    match c with
    | supplied _ => []
    | own_method => trace (apply_file_cont next file this)
    end.
Proof.
  unfold call_checkBeforeSend, bind, this_options. simpl.
  destruct (resolve (Options.checkBeforeSend (options this))); reflexivity.
Qed.


(** C7 (amended). For a paste event with clipboard items, [handlePaste]
    starts one read per image item that has a file.  When a read completes,
    the item itself, not the decoded data URI, goes through the pre-send
    check to the paste continuation, and nothing is inserted: with a
    selection the continuation makes no call, and without one it
    schedules, for the next tick, [sendToServer] on the item. *)
Theorem handlePaste_defers_send (this : This) (item : DataTransferItem.t)
  (rest : list DataTransferItem.t) :
  handlePaste (Dom.mkPaste (Some (item :: rest))) this
  = mkOutcome (normal tt)
      (reads_started (map an_item (item :: rest)) k_paste) this /\
  (forall (file : entry) (this' : This),
     apply_file_cont k_paste file this'
     = mkOutcome (normal tt)
         match getSelection (quill this') with
         | Some _ => []
         | None => [SetTimeout (paste_timeout file) 0]
         end this') /\
  (forall (file : entry) (result : string) (this' : This),
     let o := fire JSON_parse document (read_reader_onload file k_paste)
                (reader_load result) this' in
     let c := resolve (Options.checkBeforeSend (options this')) in
     trace o
     = CheckBeforeSend c file k_paste ::
       match c with
       | supplied _ => []
       | own_method => trace (apply_file_cont k_paste file this')
       end /\
     existsb is_insertion (trace o) = false /\
     completed o = normal tt /\
     this_after o = this') /\
  (forall (file : entry) (this' : This),
     fire JSON_parse document (paste_timeout file) timer this'
     = sendToServer file this').
Proof.
  assert (K : forall (file : entry) (this' : This),
             apply_file_cont k_paste file this'
             = mkOutcome (normal tt)
                 match getSelection (quill this') with
                 | Some _ => []
                 | None => [SetTimeout (paste_timeout file) 0]
                 end this').
  { intros file this'. simpl.
    unfold paste_callback, bind, quill_getSelection. simpl.
    destruct (getSelection (quill this')); reflexivity. }
  split; [|split; [exact K|split]].
  - unfold handlePaste. simpl Dom.clipboardData_items. cbv iota.
    apply readFiles_outcome.
  - intros file result this'. cbv zeta.
    change (fire JSON_parse document (read_reader_onload file k_paste)
              (reader_load result) this')
      with (call_checkBeforeSend file k_paste this').
    split; [apply call_checkBeforeSend_trace|].
    unfold call_checkBeforeSend, bind, this_options. cbn [completed
      this_after trace emit].
    destruct (resolve (Options.checkBeforeSend (options this'))).
    + repeat split.
    + unfold checkBeforeSend. rewrite K.
      destruct (getSelection (quill this')); repeat split.
  - reflexivity.
Qed.

End Properties.

(** ** Runs on concrete inputs *)

Example parse_upload_response :
  JSON.parse (quoted "{'url':'http://x/img.png'}")
  = Some (JSON.JObject [("url", JSON.JString "http://x/img.png")]).
Proof. reflexivity. Qed.

Example parse_rejects :
  map JSON.parse [""; "<html>"; quoted "{'url':}"; "[1,]"; "01"; "'a'"; "{} {}"]
  = [None; None; None; None; None; None; None].
Proof. reflexivity. Qed.

(** A 200 response with a JSON body: the success callback receives the
    parsed body and the insertion continuation, and its default embeds the
    parsed body at the end of [hello]. *)
Example xhr_200_json_body :
  fire JSON.parse page (xhr_onload own_method own_method)
    (xhr_load 200 "OK" (quoted "{'url':'http://x/img.png'}"))
    (hello None upload_options)
  = let response :=
      VParsed (JSON.JObject [("url", JSON.JString "http://x/img.png")]) in
    mkOutcome (normal tt)
      [CallbackOK own_method response k_insert;
       InsertEmbed 5 "image" response "user"]
      (mkImageUpload
         (Editor.mk None
            (map Editor.Char (list_ascii_of_string "hello")
             ++ [Editor.Embed "image" response]))
         upload_options).
Proof. reflexivity. Qed.

(** C2 (the code at the failing input). With the cursor at the start of
    the document [hello], selection [{index: 0, length: 0}], [insert]
    embeds the image at index 5, the end of the document, not at index 0
    where the cursor is. *)
Theorem insert_at_selection_0_embeds_at_end :
  let this := hello (Some (Range.mk 0 0)) Options.empty in
  getSelection (quill this) = Some (Range.mk 0 0) /\
  trace (insert (VString "data:image/png;base64,UE5H") this)
  = [InsertEmbed 5 "image" (VString "data:image/png;base64,UE5H") "user"].
Proof. split; reflexivity. Qed.

(** A selection anywhere else is honoured, and no selection means the end
    of the document. *)
Example insert_at_selection_2 :
  embed_indices
    (trace (insert (VString "x") (hello (Some (Range.mk 2 0)) Options.empty)))
  = [2%Z] /\
  embed_indices (trace (insert (VString "x") (hello None Options.empty)))
  = [5%Z].
Proof. split; reflexivity. Qed.

(** The README's [url: ''] is the base64 path. *)
Example empty_url_reads_locally :
  let opts :=
    Options.mk (Some "") None None None None None None None None None in
  trace (sendToServer (a_file png) (hello None opts))
  = [ReadAsDataURL (send_reader_onload own_method) (a_file png)].
Proof. reflexivity. Qed.

(** A dropped PNG, from the drop to the request. *)
Example drop_to_request :
  let this := hello None upload_options in
  let reader := read_reader_onload (a_file png) k_sendToServer in
  fire JSON.parse page root_drop (drop (Dom.mkDrop (Some [png; pdf]) 10 20))
    this
  = mkOutcome (normal tt)
      [PreventDefault; ReadAsDataURL reader (a_file png)] this /\
  fire JSON.parse page reader (reader_load "data:image/png;base64,UE5H") this
  = mkOutcome (normal tt)
      [CheckBeforeSend own_method (a_file png) k_sendToServer;
       XhrSend
         (XMLHttpRequest.mk "POST" "/upload" true []
            (Some (xhr_onload own_method own_method)) false)
         [("image", form_file png)]]
      this.
Proof. split; reflexivity. Qed.


(** C4 as stated fails: the status is exactly 200, the body is empty, and
    the success callback is not called; [JSON.parse] throws. *)
Lemma xhr_200_empty_body_no_success :
  let o := fire JSON.parse page (xhr_onload own_method own_method)
             (xhr_load 200 "OK" "") (hello None Options.empty) in
  trace o = [] /\
  completed o = throws SyntaxError /\
  ~ ((exists response, In (CallbackOK own_method response k_insert) (trace o))
     <-> 200%Z = 200%Z).
Proof.
  split; [reflexivity|]. split; [reflexivity|].
  intros [_ I]. destruct (I eq_refl) as [r []].
Qed.

(** C4 (amended), at a 404 response. *)
Lemma xhr_onload_success_iff_witness :
  let o := fire JSON.parse page (xhr_onload own_method own_method)
             (xhr_load 404 "Not Found" "no such route")
             (hello None Options.empty) in
  existsb is_success_callback (trace o) = false /\
  exists rest,
    trace o
    = CallbackKO own_method
        (UploadError.mk 404 "Not Found" "no such route") :: rest.
Proof.
  apply (xhr_onload_success_iff JSON.parse page own_method own_method
           404 "Not Found" "no such route" (hello None Options.empty)).
  discriminate.
Defined.

(** C6 as stated fails: a 200 response with an HTML body makes the handler
    throw, and the failure callback is not called. *)
Lemma xhr_200_html_body_throws :
  let o := fire JSON.parse page
             (xhr_onload (supplied (user_fn 1)) (supplied (user_fn 2)))
             (xhr_load 200 "OK" "<html><body>saved</body></html>")
             (hello None upload_options) in
  completed o = throws SyntaxError /\
  existsb is_failure_callback (trace o) = false.
Proof. split; reflexivity. Qed.

(** C6 (amended), at a 500 response. *)
Lemma xhr_onload_throws_iff_witness :
  let o := fire JSON.parse page
             (xhr_onload (supplied (user_fn 1)) (supplied (user_fn 2)))
             (xhr_load 500 "Internal Server Error" "")
             (hello None upload_options) in
  completed o = normal tt /\
  In (CallbackKO (supplied (user_fn 2))
        (UploadError.mk 500 "Internal Server Error" "")) (trace o).
Proof.
  apply (xhr_onload_throws_iff JSON.parse page
           (supplied (user_fn 1)) (supplied (user_fn 2))
           500 "Internal Server Error" "" (hello None upload_options)).
  discriminate.
Defined.

(** C5, at a PDF. *)
Lemma non_image_file_dropped_witness :
  let this := hello None upload_options in
  fire JSON.parse page input_onchange (change [pdf]) this
  = mkOutcome (normal tt) [ConsoleWarn "You could only upload images."] this /\
  readFiles [a_file png; a_file pdf] k_sendToServer this
  = readFiles [a_file png] k_sendToServer this.
Proof.
  destruct (non_image_file_dropped JSON.parse page
              (hello None upload_options) (a_file pdf) eq_refl)
    as [P [_ R]].
  split.
  - exact (P pdf [] eq_refl).
  - exact (R [a_file png] [] k_sendToServer).
Defined.

(** C7 as stated fails.  With a selection, the completed read of a pasted
    image leads to no insertion and to no timer; without one, what is
    scheduled is [sendToServer] on the clipboard item, which here uploads
    the item's string conversion and inserts nothing. *)
Lemma paste_inserts_no_data_uri :
  let file := an_item png_item in
  let reader := read_reader_onload file k_paste in
  let load := reader_load "data:image/png;base64,UE5H" in
  let selected := hello (Some (Range.mk 2 0)) upload_options in
  let unselected := hello None upload_options in
  trace (handlePaste (Dom.mkPaste (Some [png_item])) selected)
  = [ReadAsDataURL reader (a_file png)] /\
  fire JSON.parse page reader load selected
  = mkOutcome (normal tt) [CheckBeforeSend own_method file k_paste]
      selected /\
  fire JSON.parse page reader load unselected
  = mkOutcome (normal tt)
      [CheckBeforeSend own_method file k_paste;
       SetTimeout (paste_timeout file) 0] unselected /\
  fire JSON.parse page (paste_timeout file) timer unselected
  = mkOutcome (normal tt)
      [XhrSend
         (XMLHttpRequest.mk "POST" "/upload" true []
            (Some (xhr_onload own_method own_method)) false)
         [("image", form_string "[object DataTransferItem]")]]
      unselected.
Proof. repeat split. Qed.




(** ** Further properties of the class *)

Section More.

Context {Q : Type} `{Quill Q}.

Variable JSON_parse : string -> option JSON.json.

Variable document : Dom.Document.

Local Abbreviation This := (@ImageUpload Q).

(** *** What each method does, in full *)

Lemma setRequestHeader_fold (headers : list (string * string))
  (xhr : XMLHttpRequest.t) :
  fold_left XMLHttpRequest.setRequestHeader headers xhr
  = XMLHttpRequest.mk (XMLHttpRequest.method xhr) (XMLHttpRequest.url xhr)
      (XMLHttpRequest.async xhr)
      (XMLHttpRequest.requestHeaders xhr ++ headers)%list
      (XMLHttpRequest.onload xhr) (XMLHttpRequest.withCredentials xhr).
Proof.
  revert xhr. induction headers as [|h hs IH]; intros xhr; simpl.
  - rewrite app_nil_r. destruct xhr; reflexivity.
  - rewrite IH. simpl. rewrite <- app_assoc. reflexivity.
Qed.

Lemma sendToServer_outcome (file : entry) (this : This) :
  sendToServer file this =
  let opts := options this in
  match Options.customUploader opts with
  | Some f => mkOutcome (normal tt) [CustomUploader f file k_insert] this
  | None =>
    match if_truthy (Options.url opts) with
    | Some url =>
      let fd :=
        (or_string (Options.name opts) "image", form_value_of file) ::
        match Options.csrf opts with
        | Some csrf => [(Csrf.token csrf, form_string (Csrf.hash csrf))]
        | None => []
        end in
      let xhr :=
        XMLHttpRequest.mk (or_string (Options.method opts) "POST") url true
          (or_empty (Options.headers opts))
          (Some (xhr_onload (resolve (Options.callbackOK opts))
                            (resolve (Options.callbackKO opts))))
          match Options.withCredentials opts with
          | Some true => true
          | _ => false
          end in
      mkOutcome (normal tt) [XhrSend xhr fd] this
    | None =>
      mkOutcome (if is_item file then throws TypeError else normal tt)
        [ReadAsDataURL
           (send_reader_onload (resolve (Options.callbackOK opts))) file]
        this
    end
  end.
Proof.
  unfold sendToServer, bind, this_options. simpl.
  destruct (Options.customUploader (options this)); [reflexivity|].
  destruct (if_truthy (Options.url (options this))) as [u|].
  - rewrite setRequestHeader_fold. simpl.
    destruct (Options.withCredentials (options this)) as [[|]|];
      destruct (Options.csrf (options this)); reflexivity.
  - destruct file; reflexivity.
Qed.

Lemma paste_callback_outcome (file : entry) (this : This) :
  paste_callback file this
  = mkOutcome (normal tt)
      match getSelection (quill this) with
      | Some _ => []
      | None => [SetTimeout (paste_timeout file) 0]
      end this.
Proof.
  unfold paste_callback, bind, quill_getSelection. simpl.
  destruct (getSelection (quill this)); reflexivity.
Qed.

Lemma call_checkBeforeSend_outcome (file : entry) (next : file_cont)
  (this : This) :
  call_checkBeforeSend file next this
  = match resolve (Options.checkBeforeSend (options this)) with
    | supplied f =>
      mkOutcome (normal tt) [CheckBeforeSend (supplied f) file next] this
    | own_method =>
      let o := apply_file_cont next file this in
      mkOutcome (completed o)
        (CheckBeforeSend own_method file next :: trace o) (this_after o)
    end.
Proof.
  unfold call_checkBeforeSend, bind, this_options, checkBeforeSend. simpl.
  destruct (resolve (Options.checkBeforeSend (options this))); simpl.
  - reflexivity.
  - destruct (completed (apply_file_cont next file this)); reflexivity.
Qed.

Lemma call_callbackOK_outcome (c : callee) (response : value) (this : This) :
  call_callbackOK c response k_insert this
  = match c with
    | supplied _ =>
      mkOutcome (normal tt) [CallbackOK c response k_insert] this
    | own_method =>
      let o := insert response this in
      mkOutcome (normal tt) (CallbackOK c response k_insert :: trace o)
        (this_after o)
    end.
Proof. destruct c; reflexivity. Qed.

Lemma handleDrop_outcome (evt : Dom.DropEvent) (this : This) :
  handleDrop document evt this
  = mkOutcome (normal tt)
      (PreventDefault ::
       match Dom.dataTransfer_files evt with
       | Some (file :: rest) =>
         caret_call document evt
         ++ reads_started (map a_file (file :: rest)) k_sendToServer
       | _ => []
       end)%list this.
Proof.
  unfold handleDrop, caret_call, bind. simpl.
  destruct (Dom.dataTransfer_files evt) as [[|file rest]|]; try reflexivity.
  destruct (Dom.caretRangeFromPoint document) as [caret|]; simpl.
  - destruct (caret (Dom.clientX evt) (Dom.clientY evt)) as [range|]; simpl.
    + destruct (Dom.has_selection document); simpl;
        rewrite readFiles_outcome; reflexivity.
    + rewrite readFiles_outcome; reflexivity.
  - rewrite readFiles_outcome; reflexivity.
Qed.

Lemma handlePaste_outcome (evt : Dom.PasteEvent) (this : This) :
  handlePaste evt this
  = mkOutcome (normal tt)
      (reads_started
         (map an_item
            match Dom.clipboardData_items evt with
            | Some items => items
            | None => []
            end) k_paste) this.
Proof.
  unfold handlePaste.
  destruct (Dom.clipboardData_items evt) as [[|item rest]|]; try reflexivity.
  apply readFiles_outcome.
Qed.

Lemma reads_started_reads (files : list entry) (callback : file_cont) :
  forallb is_read (reads_started files callback) = true.
Proof.
  induction files as [|file rest IH]; [reflexivity|].
  change (reads_started (file :: rest) callback)
    with ((if is_image (entry_type file)
           then match entry_blob file with
                | Some blob =>
                  [ReadAsDataURL (read_reader_onload file callback)
                     (a_file blob)]
                | None => []
                end
           else []) ++ reads_started rest callback)%list.
  rewrite forallb_app, IH.
  destruct (is_image (entry_type file)); [|reflexivity].
  destruct (entry_blob file); reflexivity.
Qed.

#[local] Arguments reads_started : simpl never.
#[local] Arguments caret_call : simpl never.

Lemma caret_call_shape (evt : Dom.DropEvent) :
  caret_call document evt = []
  \/ exists node offset,
      caret_call document evt = [SetBaseAndExtent node offset node offset].
Proof.
  unfold caret_call.
  destruct (Dom.caretRangeFromPoint document) as [caret|]; auto.
  destruct (caret _ _); auto.
  destruct (Dom.has_selection document); eauto.
Qed.

Lemma existsb_reads (p : event -> bool) (tr : list event) :
  (forall e, is_read e = true -> p e = false) ->
  forallb is_read tr = true -> existsb p tr = false.
Proof.
  intros Hp. induction tr as [|e tr IH]; simpl; [reflexivity|].
  intros Hr. apply andb_true_iff in Hr. destruct Hr as [He Ht].
  rewrite (Hp e He), (IH Ht). reflexivity.
Qed.

(** The traces of [handleDrop] and [handlePaste] hold nothing but the
    calls that prepare the reads. *)
Lemma drop_trace_without (p : event -> bool) (evt : Dom.DropEvent)
  (this : This) :
  p PreventDefault = false ->
  (forall a b c d, p (SetBaseAndExtent a b c d) = false) ->
  (forall e, is_read e = true -> p e = false) ->
  existsb p (trace (handleDrop document evt this)) = false.
Proof.
  intros Hd Hs Hr. rewrite handleDrop_outcome. simpl. rewrite Hd. simpl.
  destruct (Dom.dataTransfer_files evt) as [[|file rest]|]; try reflexivity.
  rewrite existsb_app.
  rewrite (existsb_reads p _ Hr (reads_started_reads _ _)).
  destruct (caret_call_shape evt) as [E|[n [off E]]]; rewrite E; simpl;
    rewrite ?Hs; reflexivity.
Qed.

Lemma paste_trace_without (p : event -> bool) (evt : Dom.PasteEvent)
  (this : This) :
  (forall e, is_read e = true -> p e = false) ->
  existsb p (trace (handlePaste evt this)) = false.
Proof.
  intros Hr. rewrite handlePaste_outcome. simpl.
  apply (existsb_reads p _ Hr (reads_started_reads _ _)).
Qed.



Ltac read_is_not :=
  let e := fresh "e" in
  intros e; destruct e; simpl; congruence.

(** Unfolds the handler fired, down to the outcomes of the methods it
    calls. *)
Ltac fire_unfold :=
  simpl fire;
  unfold selectLocalImage, on_input_change, on_send_reader_load,
    on_read_reader_load, on_paste_timeout;
  rewrite ?on_xhr_load_outcome, ?call_callbackOK_outcome.

Ltac methods_unfold :=
  rewrite ?call_checkBeforeSend_outcome;
  try match goal with k : file_cont |- _ => destruct k end;
  simpl apply_file_cont; cbv zeta;
  rewrite ?sendToServer_outcome, ?paste_callback_outcome, ?insert_outcome;
  cbv zeta.

Ltac split_cases :=
  repeat (cbn [completed trace this_after options quill];
          match goal with
          | |- context [match ?x with _ => _ end] =>
            lazymatch x with
            | mkOutcome _ _ _ => fail
            | match _ with _ => _ end => fail
            | _ => destruct x eqn:?
            end
          end).



Lemma filter_without (p : event -> bool) (tr : list event) :
  existsb p tr = false -> filter p tr = [].
Proof.
  induction tr as [|e tr IH]; simpl; [reflexivity|].
  intros E. apply orb_false_iff in E. destruct E as [Ee Et].
  rewrite Ee. exact (IH Et).
Qed.

Lemma In_existsb (p : event -> bool) (e : event) (tr : list event) :
  In e tr -> p e = true -> existsb p tr = true.
Proof. intros HI Hp. apply existsb_exists. eauto. Qed.


(** X3. Whatever is fired, at most one network request is sent, and one
    is sent only when no custom uploader is configured and [options.url]
    is a non-empty string, which is then the URL of the request. *)
Theorem fire_request_needs_url (h : handler) (o : occurrence)
  (this : This) :
  let r := fire JSON_parse document h o this in
  (List.length (filter is_network_request (trace r)) <= 1)%nat /\
  forall xhr fd,
    In (XhrSend xhr fd) (trace r) ->
    Options.customUploader (options this) = None /\
    if_truthy (Options.url (options this)) = Some (XMLHttpRequest.url xhr).
Proof.
  cbv zeta.
  assert (quiet : forall tr : list event,
            existsb is_network_request tr = false ->
            (List.length (filter is_network_request tr) <= 1)%nat /\
            forall xhr fd,
              In (XhrSend xhr fd) tr ->
              Options.customUploader (options this) = None /\
              if_truthy (Options.url (options this))
              = Some (XMLHttpRequest.url xhr)).
  { intros tr E. split.
    - rewrite (filter_without _ _ E). simpl. lia.
    - intros xhr fd HI.
      rewrite (In_existsb is_network_request _ _ HI eq_refl) in E.
      discriminate. }
  destruct h, o; try (apply quiet; reflexivity).
  - apply quiet. apply drop_trace_without; try reflexivity; read_is_not.
  - apply quiet. apply paste_trace_without; read_is_not.
  - fire_unfold. destruct files as [|file rest]; [apply quiet; reflexivity|].
    destruct (is_image (File.type file)); [|apply quiet; reflexivity].
    methods_unfold; split_cases; try (apply quiet; reflexivity).
    all: split; [simpl; lia|].
    all: intros xhr fd [E|[E|[]]]; inversion E; subst; auto.
  - fire_unfold. rewrite ?insert_outcome.
    split_cases; apply quiet; reflexivity.
  - fire_unfold. rewrite ?insert_outcome.
    split_cases; apply quiet; reflexivity.
  - fire_unfold. methods_unfold; split_cases; try (apply quiet; reflexivity).
    all: split; [simpl; lia|].
    all: intros xhr fd [E|[E|[]]]; inversion E; subst; auto.
  - fire_unfold. methods_unfold; split_cases; try (apply quiet; reflexivity).
    all: split; [simpl; lia|].
    all: intros xhr fd [E|[]]; inversion E; subst; auto.
Qed.

Ltac quiet_by q := apply q; [reflexivity | intros; discriminate].

(** X4. Whatever is fired, [alert] is called if and only if a network
    response with a status other than 200 is handled by the class's own
    failure callback. *)
Theorem fire_alert_iff (h : handler) (o : occurrence) (this : This) :
  let r := fire JSON_parse document h o this in
  existsb is_alert (trace r) = true <->
  exists callbackOK status statusText body,
    h = xhr_onload callbackOK own_method /\
    o = xhr_load status statusText body /\
    status <> 200%Z.
Proof.
  cbv zeta.
  assert (quiet : forall tr : list event,
            existsb is_alert tr = false ->
            (forall callbackOK status statusText body,
               h = xhr_onload callbackOK own_method ->
               o = xhr_load status statusText body ->
               status <> 200%Z -> False) ->
            existsb is_alert tr = true <->
            exists callbackOK status statusText body,
              h = xhr_onload callbackOK own_method /\
              o = xhr_load status statusText body /\
              status <> 200%Z).
  { intros tr E N. rewrite E. split; [discriminate|].
    intros (c & st & stt & b & Eh & Eo & Es). destruct (N c st stt b Eh Eo Es). }
  destruct h, o; try (quiet_by quiet).
  - apply quiet; [|intros; discriminate].
    apply drop_trace_without; try reflexivity; read_is_not.
  - apply quiet; [|intros; discriminate].
    apply paste_trace_without; read_is_not.
  - fire_unfold. destruct files as [|file rest];
      [quiet_by quiet|].
    destruct (is_image (File.type file));
      [|quiet_by quiet].
    methods_unfold; split_cases;
      quiet_by quiet.
  - fire_unfold. rewrite ?insert_outcome.
    destruct (Z.eqb_spec status 200) as [E|E].
    + split_cases; (apply quiet; [reflexivity|]);
        intros c st stt b _ Eo; inversion Eo; subst; congruence.
    + destruct callbackKO.
      * apply quiet; [reflexivity|]. intros; discriminate.
      * simpl. split; [|reflexivity]. intros _. eauto 10.
  - fire_unfold. rewrite ?insert_outcome.
    split_cases; quiet_by quiet.
  - fire_unfold. methods_unfold; split_cases;
      quiet_by quiet.
  - fire_unfold. methods_unfold; split_cases;
      quiet_by quiet.
Qed.






Lemma reads_started_files (files : list File.t) (callback : file_cont) :
  reads_started (map a_file files) callback
  = map (fun f =>
           ReadAsDataURL (read_reader_onload (a_file f) callback) (a_file f))
        (filter (fun f => is_image (File.type f)) files).
Proof.
  unfold reads_started.
  induction files as [|f rest IH]; [reflexivity|].
  simpl. rewrite IH. destruct (is_image (File.type f)); reflexivity.
Qed.

Lemma filter_reads (tr : list event) :
  forallb is_read tr = true -> filter is_read tr = tr.
Proof.
  induction tr as [|e tr IH]; simpl; [reflexivity|].
  intros E. apply andb_true_iff in E. destruct E as [Ee Et].
  rewrite Ee, (IH Et). reflexivity.
Qed.

(** X7. [handleDrop] never throws and leaves the instance as it was.  It
    first suppresses the browser's own handling; without dropped files it
    does nothing else.  The reads it starts are one per dropped file whose
    type starts with [image/], in the order of the drop, each of the file
    itself with [sendToServer] as continuation.  It moves the caret at most
    once, and neither inserts, nor sends a request, nor calls the pre-send
    check before a read has completed. *)
Theorem handleDrop_reads_images (evt : Dom.DropEvent) (this : This) :
  let r := handleDrop document evt this in
  let files :=
    match Dom.dataTransfer_files evt with
    | Some files => files
    | None => []
    end in
  completed r = normal tt /\
  this_after r = this /\
  hd_error (trace r) = Some PreventDefault /\
  (files = [] -> trace r = [PreventDefault]) /\
  filter is_read (trace r)
  = map (fun f =>
           ReadAsDataURL (read_reader_onload (a_file f) k_sendToServer)
             (a_file f))
        (filter (fun f => is_image (File.type f)) files) /\
  (List.length
     (filter (fun e => negb (is_read e)) (trace r)) <= 2)%nat /\
  existsb (fun e => is_insertion e || is_network_request e || is_check e)
    (trace r) = false.
Proof.
  cbv zeta.
  assert (Q3 : existsb
                 (fun e => is_insertion e || is_network_request e
                           || is_check e)
                 (trace (handleDrop document evt this)) = false).
  { apply drop_trace_without; try reflexivity; read_is_not. }
  revert Q3. rewrite handleDrop_outcome. cbn [completed trace this_after].
  intros Q3. repeat split; try exact Q3.
  - intros E. destruct (Dom.dataTransfer_files evt) as [[|f rest]|];
      try reflexivity. discriminate.
  - destruct (Dom.dataTransfer_files evt) as [[|f rest]|]; try reflexivity.
    cbn [filter is_read]. rewrite filter_app, (filter_reads _
      (reads_started_reads _ _)), reads_started_files.
    destruct (caret_call_shape evt) as [E|[n [off E]]]; rewrite E;
      reflexivity.
  - destruct (Dom.dataTransfer_files evt) as [[|f rest]|]; try (simpl; lia).
    cbn [filter is_read negb]. rewrite filter_app.
    rewrite (filter_without (fun e => negb (is_read e))
               (reads_started _ _)).
    + destruct (caret_call_shape evt) as [E|[n [off E]]]; rewrite E;
        simpl; lia.
    + generalize (reads_started_reads (map a_file (f :: rest))
                    k_sendToServer).
      generalize (reads_started (map a_file (f :: rest)) k_sendToServer).
      intros tr. induction tr as [|e tr IH]; simpl; [reflexivity|].
      intros E. apply andb_true_iff in E. destruct E as [Ee Et].
      rewrite Ee, (IH Et). reflexivity.
Qed.

(** X8. [readFiles] never throws and leaves the instance as it was; the
    calls it makes are exactly the reads of the blobs of the entries whose
    type starts with [image/] and that have a blob, each registered with
    the entry itself and the callback, and there are no more of them than
    entries. *)
Theorem readFiles_reads_image_blobs (files : list entry)
  (callback : file_cont) (this : This) :
  let r := readFiles files callback this in
  completed r = normal tt /\
  this_after r = this /\
  (List.length (trace r) <= List.length files)%nat /\
  forall e,
    In e (trace r) <->
    exists file blob,
      In file files /\
      is_image (entry_type file) = true /\
      entry_blob file = Some blob /\
      e = ReadAsDataURL (read_reader_onload file callback) (a_file blob).
Proof.
  cbv zeta. rewrite readFiles_outcome. cbn [completed trace this_after].
  split; [reflexivity|]. split; [reflexivity|]. split.
  - unfold reads_started. induction files as [|file rest IH]; simpl; [lia|].
    rewrite length_app.
    destruct (is_image (entry_type file));
      [destruct (entry_blob file)|]; simpl; lia.
  - intros e. unfold reads_started. rewrite in_flat_map. split.
    + intros (file & HI & He). exists file.
      destruct (is_image (entry_type file)); [|destruct He].
      destruct (entry_blob file) as [blob|]; [|destruct He].
      destruct He as [<-|[]]. exists blob. auto.
    + intros (file & blob & HI & Ei & Eb & ->). exists file.
      rewrite Ei, Eb. simpl. auto.
Qed.

(** X9. With none of the check, the custom uploader, a URL and the
    success callback configured, an image chosen in the picker goes through
    the class's own check straight to a local read, and when that read
    completes its result is embedded as an image at the insertion index of
    the editor at that moment, with no other call in between; files chosen
    after the first are ignored. *)
Theorem picker_embeds_data_url (this : This) (f : File.t)
  (rest : list File.t) :
  is_image (File.type f) = true ->
  Options.checkBeforeSend (options this) = None ->
  Options.customUploader (options this) = None ->
  if_truthy (Options.url (options this)) = None ->
  Options.callbackOK (options this) = None ->
  let onload := send_reader_onload own_method in
  fire JSON_parse document input_onchange (change (f :: rest)) this
  = mkOutcome (normal tt)
      [CheckBeforeSend own_method (a_file f) k_sendToServer;
       ReadAsDataURL onload (a_file f)] this /\
  forall (result : string) (this' : This),
    let index :=
      or_number (option_map Range.index (getSelection (quill this')))
                (getLength (quill this')) in
    fire JSON_parse document onload (reader_load result) this'
    = mkOutcome (normal tt)
        [CallbackOK own_method (VString result) k_insert;
         InsertEmbed index "image" (VString result) "user"]
        (mkImageUpload
           (insertEmbed (quill this') index "image" (VString result) "user")
           (options this')).
Proof.
  intros Ei Ec Eu El Eo. cbv zeta. split; [|reflexivity].
  fire_unfold. rewrite Ei. methods_unfold. rewrite Ec, Eu, El, Eo.
  reflexivity.
Qed.




(** X13. In the earlier variant an image chosen in the picker is never
    sent when the class's own check is in use: the check calls
    [this.sendToServer] without a receiver, which throws a [TypeError]
    before any request is made. *)
Theorem legacy_picker_throws (this : This) (f : File.t)
  (rest : list File.t) :
  is_image (File.type f) = true ->
  Options.checkBeforeSend (options this) = None ->
  Legacy.on_input_change (f :: rest) this
  = mkOutcome (throws TypeError)
      [CheckBeforeSend own_method (a_file f) k_sendToServer] this.
Proof.
  intros Ei Ec. unfold Legacy.on_input_change. rewrite Ei.
  unfold bind, this_options. simpl. rewrite Ec. reflexivity.
Qed.

(** X14. A pre-send check supplied in the options gates every intake
    path: for an image chosen in the picker, and for a read started by
    [readFiles] that completes, the only call made is the supplied check,
    on the entry and the continuation of that path; nothing is sent, read
    or embedded until the page calls the continuation. *)
Theorem supplied_check_gates (this : This) (u : UserFn) :
  Options.checkBeforeSend (options this) = Some u ->
  (forall (f : File.t) (rest : list File.t),
     is_image (File.type f) = true ->
     fire JSON_parse document input_onchange (change (f :: rest)) this
     = mkOutcome (normal tt)
         [CheckBeforeSend (supplied u) (a_file f) k_sendToServer] this) /\
  (forall (file : entry) (callback : file_cont) (result : string),
     fire JSON_parse document (read_reader_onload file callback)
       (reader_load result) this
     = mkOutcome (normal tt) [CheckBeforeSend (supplied u) file callback]
         this).
Proof.
  intros Ec. split.
  - intros f rest Ei. fire_unfold. rewrite Ei.
    rewrite call_checkBeforeSend_outcome, Ec. reflexivity.
  - intros file callback result. fire_unfold.
    rewrite call_checkBeforeSend_outcome, Ec. reflexivity.
Qed.

End More.

(** *** Runs of the further properties *)


(** X9, at the empty options with the cursor at index 2. *)
Lemma picker_embeds_data_url_witness :
  let this := hello (Some (Range.mk 2 0)) Options.empty in
  fire JSON.parse page input_onchange (change [png; pdf]) this
  = mkOutcome (normal tt)
      [CheckBeforeSend own_method (a_file png) k_sendToServer;
       ReadAsDataURL (send_reader_onload own_method) (a_file png)] this.
Proof.
  exact (proj1 (picker_embeds_data_url JSON.parse page
                  (hello (Some (Range.mk 2 0)) Options.empty) png [pdf]
                  eq_refl eq_refl eq_refl eq_refl eq_refl)).
Defined.


(** X13, at [{url: '/upload'}]. *)
Lemma legacy_picker_throws_witness :
  let this := hello None upload_options in
  Legacy.on_input_change [png] this
  = mkOutcome (throws TypeError)
      [CheckBeforeSend own_method (a_file png) k_sendToServer] this.
Proof.
  exact (legacy_picker_throws (hello None upload_options) png []
           eq_refl eq_refl).
Defined.

(** X14, at a supplied check and a pasted PNG. *)
Lemma supplied_check_gates_witness :
  let opts :=
    Options.mk None None None None None None None None None
      (Some (user_fn 7)) in
  let this := hello None opts in
  fire JSON.parse page (read_reader_onload (an_item png_item) k_paste)
    (reader_load "data:image/png;base64,UE5H") this
  = mkOutcome (normal tt)
      [CheckBeforeSend (supplied (user_fn 7)) (an_item png_item) k_paste]
      this.
Proof.
  exact (proj2 (supplied_check_gates JSON.parse page
                  (hello None
                     (Options.mk None None None None None None None None
                        None (Some (user_fn 7))))
                  (user_fn 7) eq_refl)
           (an_item png_item) k_paste "data:image/png;base64,UE5H").
Defined.
